(** * Scroll tracking and preloader gate of the landing page

    A shallow embedding of the two pieces of state-driven logic of the
    site: the active-section tracker of [ElegantNavigation]
    (src/Footer.tsx, second document) with the [scrollToSection] helper
    that [Footer] and [ElegantNavigation] both define, and the
    preloader gate of the [Index] page (src/Index.tsx).

    The code talks to the browser; the part of the browser it reads and
    writes is made explicit: the element table of the document, the
    scroll offset, the overflow style of the body, and the log of
    [scrollIntoView] invocations. *)

From Stdlib Require Import QArith.
From stdpp Require Import gmap strings list.

Local Open Scope string_scope.

(** ** The fragment of JavaScript the handlers use *)

Module Js.

(** A member access on [null] raises a [TypeError]. *)
Inductive Exn : Type := TypeError.

(** A computation either completes with a value or throws. *)
Inductive Completion (A : Type) : Type :=
| Normal (a : A)
| Throw (e : Exn).
Arguments Normal {A} a.
Arguments Throw {A} e.

Definition ret {A} (a : A) : Completion A := Normal a.

Definition bind {A B} (c : Completion A) (k : A -> Completion B)
  : Completion B :=
  match c with
  | Normal a => k a
  | Throw e => Throw e
  end.

(** [Array.prototype.find]: the first element the callback accepts,
    [undefined] ([None]) when there is none.  The callback runs left to
    right and is not called past the first hit; an exception of the
    callback leaves the loop. *)
Fixpoint find {A} (callback : A -> Completion bool) (l : list A)
  : Completion (option A) :=
  match l with
  | [] => Normal None
  | x :: rest =>
      bind (callback x) (fun hit =>
        if hit then Normal (Some x) else find callback rest)
  end.

(** [ToBoolean] on an object reference: [null] is falsy. *)
Definition truthyRef {A} (r : option A) : bool :=
  match r with Some _ => true | None => false end.

(** [ToBoolean] on a string: only the empty string is falsy. *)
Definition truthyStr (s : string) : bool := negb (String.eqb s "").

(** Numbers.  [window.scrollY] and the sides of a [DOMRect] are finite
    doubles; every finite double is a rational and the comparisons of
    the two agree, so the offsets live in [Q] (fractional pixels
    included). *)
Definition leq (x y : Q) : bool := Qle_bool x y.          (* x <= y *)
Definition geq (x y : Q) : bool := Qle_bool y x.          (* x >= y *)
Definition gt (x y : Q) : bool :=                         (* x > y *)
  (Qnum y * QDen x <? Qnum x * QDen y)%Z.

End Js.

Notation "x <- c1 ;; c2" := (Js.bind c1 (fun x => c2))
(at level 100, c1 at next level, right associativity).

(** ** The fragment of the DOM the handlers use *)

Module Dom.
Import Js.

(** [getBoundingClientRect()]: only [top] and [bottom] are read. *)
Record DOMRect : Type := { top : Q; bottom : Q }.

Record Element : Type := { rect : DOMRect }.

(** What a scroll handler can observe: the scroll offset and the
    elements that carry an [id].  An element absent from the table is
    an anchor that is not in the document. *)
Record Window : Type := {
  scrollY : Q;
  document : gmap string Element
}.

(** [document.getElementById]: [null] when no element has that id; an
    element never has the empty id. *)
Definition getElementById (d : gmap string Element) (id : string)
  : option Element :=
  if String.eqb id "" then None else d !! id.

(** [element.getBoundingClientRect()] on a reference that may be
    [null]. *)
Definition getBoundingClientRect (element : option Element)
  : Completion DOMRect :=
  match element with
  | Some e => Normal (rect e)
  | None => Throw TypeError
  end.

Inductive ScrollBehavior : Type := Smooth | Instant | AutoBehavior.
Inductive ScrollLogicalPosition : Type := Start | Center | End_ | Nearest.

(** [ScrollIntoViewOptions]; a member left out is [None]. *)
Record ScrollIntoViewOptions : Type := {
  behavior : option ScrollBehavior;
  block : option ScrollLogicalPosition
}.

(** One invocation of [scrollIntoView], on the element found under
    [target]. *)
Record ScrollCall : Type := {
  target : string;
  options : ScrollIntoViewOptions
}.

(** The vertical alignment an invocation asks for: [block] defaults to
    [start], the top of the element at the top of the viewport. *)
Definition alignment (c : ScrollCall) : ScrollLogicalPosition :=
  default Start (block (options c)).

(** [element.scrollIntoView(options)] on a reference that may be
    [null]; the invocation is appended to the log. *)
Definition scrollIntoView (id : string) (element : option Element)
    (opts : ScrollIntoViewOptions) (log : list ScrollCall)
  : Completion (list ScrollCall) :=
  match element with
  | Some _ => Normal (log ++ [ {| target := id; options := opts |} ])%list
  | None => Throw TypeError
  end.

(** An entry of the event listener list of the window: the event type
    and the callback.  A callback is a closure, equal only to itself;
    closures are told apart by a number given at creation. *)
Record Listener : Type := { eventType : string; callback : nat }.

Definition sameListener (a b : Listener) : bool :=
  String.eqb (eventType a) (eventType b) && Nat.eqb (callback a) (callback b).

Definition registered (ty : string) (cb : nat) (ls : list Listener) : bool :=
  existsb (sameListener {| eventType := ty; callback := cb |}) ls.

(** [window.addEventListener(type, callback)]: appended, unless the list
    already holds that type with that callback. *)
Definition addEventListener (ty : string) (cb : nat) (ls : list Listener)
  : list Listener :=
  if registered ty cb ls then ls
  else (ls ++ [ {| eventType := ty; callback := cb |} ])%list.

(** [window.removeEventListener(type, callback)]: the first entry with
    that type and callback is taken out; nothing happens without one. *)
Fixpoint removeEventListener (ty : string) (cb : nat) (ls : list Listener)
  : list Listener :=
  match ls with
  | [] => []
  | l :: rest =>
      if sameListener {| eventType := ty; callback := cb |} l then rest
      else l :: removeEventListener ty cb rest
  end.

End Dom.

(** ** ElegantNavigation *)

Module ElegantNavigation.
Import Js Dom.

(** The two [useState] cells. *)
Record State : Type := {
  isScrolled : bool;
  activeSection : string
}.

(** [useState(false)] and [useState("")]. *)
Definition initialState : State :=
  {| isScrolled := false; activeSection := "" |}.

Definition setIsScrolled (b : bool) (st : State) : State :=
  {| isScrolled := b; activeSection := activeSection st |}.

Definition setActiveSection (s : string) (st : State) : State :=
  {| isScrolled := isScrolled st; activeSection := s |}.

Definition sections : list string :=
  ["hero"; "services"; "work"; "about"; "contact"].

(** The callback handed to [sections.find]. *)
Definition sectionCallback (w : Window) (section : string)
  : Completion bool :=
  let element := getElementById (document w) section in
  if truthyRef element then
    rect <- getBoundingClientRect element ;;
    ret (leq (top rect) 100 && geq (bottom rect) 100)
  else ret false.

Definition handleScroll (w : Window) (st : State) : Completion State :=
  let st := setIsScrolled (gt (scrollY w) 50) st in
  currentSection <- find (sectionCallback w) sections ;;
  match currentSection with
  | Some section =>
      if truthyStr section then ret (setActiveSection section st)
      else ret st
  | None => ret st                      (* [undefined] is falsy *)
  end.

(** The helper behind every navigation click: the invocation is made
    only on an element that was found. *)
Definition scrollToSection (d : gmap string Element) (sectionId : string)
    (log : list ScrollCall) : Completion (list ScrollCall) :=
  let element := getElementById d sectionId in
  if truthyRef element then
    scrollIntoView sectionId element
      {| behavior := Some Smooth; block := None |} log
  else ret log.

Record NavItem : Type := { id : string; label : string }.

Definition navItems : list NavItem :=
  [ {| id := "work"; label := "Work" |};
    {| id := "services"; label := "Services" |};
    {| id := "about"; label := "About" |} ].

(** [activeSection === item.id], the test that paints a link as active. *)
Definition isActive (st : State) (region : string) : bool :=
  String.eqb (activeSection st) region.

(** What the render shows of the state: the background treatment of the
    bar and, per link, its label and whether it is the active one. *)
Record View : Type := {
  opaqueBar : bool;
  links : list (string * bool)
}.

Definition render (st : State) : View :=
  {| opaqueBar := isScrolled st;
     links := map (fun item => (label item, isActive st (id item))) navItems |}.

(** What can happen to the mounted component: the scroll listener
    registered by the effect fires, or one of the three click targets is
    pressed. *)
Inductive Event : Type :=
| Scroll
| ClickLogo
| ClickNavItem (item : NavItem)
| ClickCta.

Definition isScrollEvent (ev : Event) : bool :=
  match ev with Scroll => true | _ => false end.

(** The component between two events: its state and the invocations made
    so far. *)
Definition Config : Type := State * list ScrollCall.

Definition dispatch (w : Window) (ev : Event) (c : Config)
  : Completion Config :=
  match ev with
  | Scroll => st <- handleScroll w (fst c) ;; ret (st, snd c)
  | ClickLogo =>
      log <- scrollToSection (document w) "hero" (snd c) ;; ret (fst c, log)
  | ClickNavItem item =>
      log <- scrollToSection (document w) (id item) (snd c) ;; ret (fst c, log)
  | ClickCta =>
      log <- scrollToSection (document w) "contact" (snd c) ;; ret (fst c, log)
  end.

(** Mounting: the effect only registers [handleScroll] as the scroll
    listener, it does not call it; no invocation has been made. *)
Definition mounted : Config := (initialState, []).

(** A run of scroll events, each seeing the window of its moment. *)
Fixpoint onScrolls (ws : list Window) (st : State) : Completion State :=
  match ws with
  | [] => ret st
  | w :: later => st' <- handleScroll w st ;; onScrolls later st'
  end.

(** The body of the effect, for the run in which the closure
    [handleScroll] is created as number [self]. *)
Definition effect (self : nat) (ls : list Listener) : list Listener :=
  addEventListener "scroll" self ls.

(** The function the effect returns; it names the same closure. *)
Definition effectCleanup (self : nat) (ls : list Listener) : list Listener :=
  removeEventListener "scroll" self ls.

(** A scroll event on the window: the handler runs when it is in the
    listener list. *)
Definition windowScroll (self : nat) (ls : list Listener) (w : Window)
    (st : State) : Completion State :=
  if registered "scroll" self ls then handleScroll w st else ret st.

(** A run of events on the mounted component, each with the window of
    its moment. *)
Fixpoint run (es : list (Window * Event)) (c : Config) : Completion Config :=
  match es with
  | [] => ret c
  | (w, ev) :: later => c' <- dispatch w ev c ;; run later c'
  end.

End ElegantNavigation.

(** ** Footer *)

Module Footer.
Import Js Dom.

(** The footer declares the same helper. *)
Definition scrollToSection (d : gmap string Element) (sectionId : string)
    (log : list ScrollCall) : Completion (list ScrollCall) :=
  let element := getElementById d sectionId in
  if truthyRef element then
    scrollIntoView sectionId element
      {| behavior := Some Smooth; block := None |} log
  else ret log.

(** The three buttons under "Quick Links". *)
Inductive QuickLink : Type := OurWork | Services | Contact.

Definition quickLinkLabel (q : QuickLink) : string :=
  match q with
  | OurWork => "Our Work"
  | Services => "Services"
  | Contact => "Contact"
  end.

(** The identifier each button hands to [scrollToSection]. *)
Definition quickLinkTarget (q : QuickLink) : string :=
  match q with
  | OurWork => "work"
  | Services => "services"
  | Contact => "contact"
  end.

Definition onClick (d : gmap string Element) (q : QuickLink)
    (log : list ScrollCall) : Completion (list ScrollCall) :=
  scrollToSection d (quickLinkTarget q) log.

(** A run of clicks, each on the document of its moment. *)
Fixpoint clicks (qs : list (gmap string Element * QuickLink))
    (log : list ScrollCall) : Completion (list ScrollCall) :=
  match qs with
  | [] => ret log
  | (d, q) :: later => log' <- onClick d q log ;; clicks later log'
  end.

End Footer.

(** ** Index: the preloader gate *)

Module Index.

(** The part of the document the page writes: the class list of the root
    element and the inline [overflow] of the body. *)
Record Page : Type := {
  classList : gset string;
  bodyOverflow : string
}.

Definition setOverflow (v : string) (d : Page) : Page :=
  {| classList := classList d; bodyOverflow := v |}.

Definition addClass (c : string) (d : Page) : Page :=
  {| classList := {[ c ]} ∪ classList d; bodyOverflow := bodyOverflow d |}.

(** The body scrolls unless its overflow is [hidden]. *)
Definition scrollLocked (d : Page) : bool :=
  String.eqb (bodyOverflow d) "hidden".

Inductive Phase : Type := Loading | Loaded.

(** The [useState] cell together with the document it acts on. *)
Record Config : Type := {
  isLoaded : bool;
  page : Page
}.

Definition phase (c : Config) : Phase :=
  if isLoaded c then Loaded else Loading.

(** The body of the mount effect. *)
Definition mountEffect (d : Page) : Page :=
  setOverflow "hidden" (addClass "dark" d).

(** The function the mount effect returns. *)
Definition cleanup (d : Page) : Page := setOverflow "unset" d.

(** First render, [useState(false)], then the effect. *)
Definition mount (d : Page) : Config :=
  {| isLoaded := false; page := mountEffect d |}.

Definition handlePreloaderComplete (c : Config) : Config :=
  {| isLoaded := true; page := setOverflow "unset" (page c) |}.

(** Teardown runs the cleanup; the state cell dies with the component,
    the document stays. *)
Definition unmount (c : Config) : Page := cleanup (page c).

(** The two conditional children of the fragment. *)
Record View : Type := {
  preloader : bool;
  mainApplication : bool
}.

Definition render (c : Config) : View :=
  {| preloader := negb (isLoaded c); mainApplication := isLoaded c |}.

(** The configurations a run of completion signals goes through, the
    starting one first. *)
Fixpoint trace (signals : nat) (c : Config) : list Config :=
  match signals with
  | O => [c]
  | S n => c :: trace n (handlePreloaderComplete c)
  end.

(** How often a property of the configuration switches from [true] to
    [false] along a trace. *)
Fixpoint falls (p : Config -> bool) (t : list Config) : nat :=
  match t with
  | a :: ((b :: _) as rest) =>
      (if p a && negb (p b) then 1 else 0) + falls p rest
  | _ => 0
  end.

(** The page is torn down and mounted again on the document the
    teardown left: a new state cell, the effect once more. *)
Definition remount (c : Config) : Config := mount (unmount c).

End Index.

(** ** Vocabulary of the specification *)

Module Spec.
Import Js Dom.

(** The 100px reference line falls within the rectangle of the region's
    anchor; an anchor that is not in the document straddles nothing. *)
Definition straddles (w : Window) (region : string) : Prop :=
  exists e, document w !! region = Some e
            /\ (top (rect e) <= 100)%Q /\ (100 <= bottom (rect e))%Q.

(** The anchor of a region is in the document. *)
Definition present (d : gmap string Element) (region : string) : bool :=
  bool_decide (is_Some (d !! region)).

(** The regions the navigation shows as active, out of a list of
    identifiers. *)
Definition activeAmong (st : ElegantNavigation.State) (regions : list string)
  : list string :=
  List.filter (ElegantNavigation.isActive st) regions.

(** The active section is the empty value or a declared region. *)
Definition declaredOrNone (st : ElegantNavigation.State) : Prop :=
  ElegantNavigation.activeSection st = ""
  \/ In (ElegantNavigation.activeSection st) ElegantNavigation.sections.

(** The invocation a click asks for: [{ behavior: "smooth" }] on the
    element with that identifier. *)
Definition smoothCall (sectionId : string) : ScrollCall :=
  {| target := sectionId;
     options := {| behavior := Some Smooth; block := None |} |}.

(** The invocations a helper makes for an identifier: one when it
    resolves to an element, none otherwise. *)
Definition callsFor (d : gmap string Element) (sectionId : string)
  : list ScrollCall :=
  if truthyRef (getElementById d sectionId) then [smoothCall sectionId]
  else [].

(** The identifier a navigation event hands to [scrollToSection]. *)
Definition clickTarget (ev : ElegantNavigation.Event) : option string :=
  match ev with
  | ElegantNavigation.Scroll => None
  | ElegantNavigation.ClickLogo => Some "hero"
  | ElegantNavigation.ClickNavItem item => Some (ElegantNavigation.id item)
  | ElegantNavigation.ClickCta => Some "contact"
  end.

(** The windows of the scroll events of a run, in order. *)
Definition scrollWindows (es : list (Window * ElegantNavigation.Event))
  : list Window :=
  map fst (List.filter (fun e => ElegantNavigation.isScrollEvent (snd e)) es).

(** The invocations the clicks of a run make, in order. *)
Definition clickCalls (es : list (Window * ElegantNavigation.Event))
  : list ScrollCall :=
  flat_map (fun e => match clickTarget (snd e) with
                     | Some sectionId => callsFor (document (fst e)) sectionId
                     | None => []
                     end) es.

(** The invocations a run of footer clicks makes, in order. *)
Definition quickLinkCalls (qs : list (gmap string Element * Footer.QuickLink))
  : list ScrollCall :=
  flat_map (fun e => callsFor (fst e) (Footer.quickLinkTarget (snd e))) qs.

(** A rendered link is painted as the active one. *)
Definition highlighted (v : ElegantNavigation.View) : list string :=
  map fst (List.filter snd (ElegantNavigation.links v)).

End Spec.

(** ** Sample documents *)

Module Samples.
Import Dom.

Definition box (t b : Q) : Element := {| rect := {| top := t; bottom := b |} |}.

(** No [hero] anchor; [services] ends on the reference line where [work]
    begins, so both rectangles contain it; [about] is further down. *)
Definition overlapping : Window :=
  {| scrollY := 1480;
     document := {[ "services" := box (-(1241 # 2)) 100;
                    "work" := box 100 980;
                    "about" := box 980 1700 ]} |}.

(** The top of the page: every region is below the reference line. *)
Definition atTop : Window :=
  {| scrollY := 0;
     document := {[ "hero" := box 120 900; "services" := box 900 1500 ]} |}.

(** A body that carried its own overflow setting before the page
    mounted. *)
Definition scrollingBody : Index.Page :=
  {| Index.classList := ∅; Index.bodyOverflow := "scroll" |}.

(** A window with all five anchors stacked in the declared order, the
    reference line inside [work]. *)
Definition stacked : Window :=
  {| scrollY := 2100;
     document := {[ "hero" := box (-2100) (-1200);
                    "services" := box (-1200) (-300);
                    "work" := box (-300) 640;
                    "about" := box 640 1400;
                    "contact" := box 1400 2000 ]} |}.

(** A listener list with somebody else's handlers in it. *)
Definition otherListeners : list Listener :=
  [ {| eventType := "scroll"; callback := 3 |};
    {| eventType := "resize"; callback := 7 |} ].

End Samples.

(** ** Comparisons *)

Section Comparisons.
Import Js.

Lemma gt_true_iff (x y : Q) : gt x y = true <-> (y < x)%Q.
Proof. unfold gt, Qlt. apply Z.ltb_lt. Qed.

Lemma gt_false_iff (x y : Q) : gt x y = false <-> (x <= y)%Q.
Proof. unfold gt, Qle. apply Z.ltb_ge. Qed.

Lemma leq_true_iff (x y : Q) : leq x y = true <-> (x <= y)%Q.
Proof. apply Qle_bool_iff. Qed.

Lemma geq_true_iff (x y : Q) : geq x y = true <-> (y <= x)%Q.
Proof. apply Qle_bool_iff. Qed.

End Comparisons.

(** ** The array search *)

Section Find.
Import Js.
Context {A : Type} (callback : A -> Completion bool).

(** A callback that never throws is a plain predicate. *)
Hypothesis callback_pure : forall x, exists b, callback x = Normal b.

Lemma find_normal (l : list A) : exists r, find callback l = Normal r.
Proof.
  induction l as [|x l IH]; simpl; [by eexists|].
  destruct (callback_pure x) as [b ->]; simpl.
  destruct b; [by eexists | exact IH].
Qed.

Lemma find_first (before after : list A) (x : A) :
  (forall y, In y before -> callback y = Normal false) ->
  callback x = Normal true ->
  find callback (before ++ x :: after) = Normal (Some x).
Proof.
  intros Hbefore Hx.
  induction before as [|y before IH]; simpl.
  - by rewrite Hx.
  - rewrite (Hbefore y) by (by left). simpl.
    apply IH. intros z Hz. apply Hbefore. by right.
Qed.

Lemma find_none (l : list A) :
  (forall y, In y l -> callback y = Normal false) ->
  find callback l = Normal None.
Proof.
  induction l as [|y l IH]; intros Hall; simpl; [done|].
  rewrite (Hall y) by (by left). simpl.
  apply IH. intros z Hz. apply Hall. by right.
Qed.

Lemma find_some_in (l : list A) (x : A) :
  find callback l = Normal (Some x) -> In x l.
Proof.
  induction l as [|y l IH]; simpl; [done|].
  destruct (callback_pure y) as [b ->]; simpl.
  destruct b; [intros [= ->]; by left | intros H; right; auto].
Qed.

(** Elements the callback rejects can be dropped from the array. *)
Lemma find_filter (keep : A -> bool) (l : list A) :
  (forall y, keep y = false -> callback y = Normal false) ->
  find callback (List.filter keep l) = find callback l.
Proof.
  intros Hdrop. induction l as [|y l IH]; simpl; [done|].
  destruct (keep y) eqn:Hk; simpl.
  - destruct (callback y) as [[|]|]; simpl; auto.
  - by rewrite (Hdrop y Hk).
Qed.

End Find.

(** ** The section tracker *)

Section Tracker.
Import Js Dom ElegantNavigation Spec.

Lemma sections_nonempty (r : string) : In r sections -> r <> "".
Proof. unfold sections. simpl. intros H Hr. subst r. intuition discriminate. Qed.

Lemma getElementById_lookup (d : gmap string Element) (r : string) :
  r <> "" -> getElementById d r = d !! r.
Proof.
  intros Hr. unfold getElementById.
  by destruct (String.eqb_spec r "").
Qed.

Lemma getElementById_absent (d : gmap string Element) (r : string) :
  d !! r = None -> getElementById d r = None.
Proof. intros H. unfold getElementById. by destruct (String.eqb r ""). Qed.

(** The guard on [element] keeps the callback from throwing. *)
Lemma sectionCallback_pure (w : Window) (r : string) :
  exists b, sectionCallback w r = Normal b.
Proof.
  unfold sectionCallback.
  destruct (getElementById (document w) r) as [e|]; simpl; by eexists.
Qed.

Lemma sectionCallback_absent (w : Window) (r : string) :
  document w !! r = None -> sectionCallback w r = Normal false.
Proof.
  intros H. unfold sectionCallback.
  by rewrite (getElementById_absent _ _ H).
Qed.

Lemma sectionCallback_true (w : Window) (r : string) :
  r <> "" -> straddles w r -> sectionCallback w r = Normal true.
Proof.
  intros Hr (e & He & Htop & Hbot). unfold sectionCallback.
  rewrite (getElementById_lookup _ _ Hr), He. simpl. unfold ret. f_equal.
  apply andb_true_iff. split; [by apply leq_true_iff | by apply geq_true_iff].
Qed.

Lemma sectionCallback_false (w : Window) (r : string) :
  ~ straddles w r -> sectionCallback w r = Normal false.
Proof.
  intros Hno. unfold sectionCallback, getElementById.
  destruct (String.eqb r ""); [done|].
  destruct (document w !! r) as [e|] eqn:He; simpl; [|done].
  unfold ret. f_equal. apply not_true_is_false. intros Hb.
  apply andb_true_iff in Hb as [Htop Hbot].
  apply Hno. exists e. split; [done|].
  split; [by apply leq_true_iff | by apply geq_true_iff].
Qed.

Lemma truthyStr_sections (r : string) : In r sections -> truthyStr r = true.
Proof.
  intros H. apply sections_nonempty in H. unfold truthyStr.
  by destruct (String.eqb_spec r "").
Qed.

(** The handler unfolded at the outcome of the search. *)
Lemma handleScroll_found (w : Window) (st : State) (r : string) :
  find (sectionCallback w) sections = Normal (Some r) ->
  handleScroll w st
  = Normal (setActiveSection r (setIsScrolled (gt (scrollY w) 50) st)).
Proof.
  intros Hfind.
  pose proof (find_some_in _ (sectionCallback_pure w) _ _ Hfind) as Hin.
  unfold handleScroll. rewrite Hfind. simpl.
  by rewrite (truthyStr_sections _ Hin).
Qed.

Lemma handleScroll_not_found (w : Window) (st : State) :
  find (sectionCallback w) sections = Normal None ->
  handleScroll w st = Normal (setIsScrolled (gt (scrollY w) 50) st).
Proof. intros Hfind. unfold handleScroll. by rewrite Hfind. Qed.

(** Every scroll event completes, and what it does to the two cells. *)
Lemma handleScroll_cases (w : Window) (st : State) :
  exists st', handleScroll w st = Normal st'
    /\ isScrolled st' = gt (scrollY w) 50
    /\ (activeSection st' = activeSection st
        \/ In (activeSection st') sections).
Proof.
  destruct (find_normal (sectionCallback w) (sectionCallback_pure w) sections)
    as [[r|] Hfind].
  - pose proof (find_some_in _ (sectionCallback_pure w) _ _ Hfind) as Hin.
    rewrite (handleScroll_found _ _ _ Hfind). eexists. split; [done|].
    split; [done|]. by right.
  - rewrite (handleScroll_not_found _ _ Hfind). eexists. split; [done|].
    split; [done|]. by left.
Qed.

Lemma sections_NoDup : NoDup sections.
Proof. apply (bool_decide_unpack _). by vm_compute. Qed.

(** A string is equal to at most one entry of a duplicate-free list. *)
Lemma filter_eqb_absent (a : string) (l : list string) :
  a ∉ l -> List.filter (String.eqb a) l = [].
Proof.
  induction l as [|x l IH]; intros Hnot; simpl; [done|].
  destruct (String.eqb_spec a x) as [->|Hne].
  - exfalso. apply Hnot. by left.
  - apply IH. intros Hin. apply Hnot. by right.
Qed.

Lemma filter_eqb_le_1 (a : string) (l : list string) :
  NoDup l -> length (List.filter (String.eqb a) l) <= 1.
Proof.
  induction 1 as [|x l Hx Hl IH]; simpl; [lia|].
  destruct (String.eqb_spec a x) as [->|Hne]; [|exact IH].
  rewrite (filter_eqb_absent _ _ Hx). simpl. lia.
Qed.

Lemma activeAmong_sections_le_1 (st : State) :
  length (activeAmong st sections) <= 1.
Proof. apply filter_eqb_le_1, sections_NoDup. Qed.

End Tracker.

(** ** The handlers on the sample documents *)

Section Runs.
Import Js Dom ElegantNavigation.

Example handleScroll_overlapping :
  handleScroll Samples.overlapping initialState
  = Normal {| isScrolled := true; activeSection := "services" |}.
Proof. reflexivity. Qed.

Example handleScroll_atTop :
  handleScroll Samples.atTop {| isScrolled := true; activeSection := "about" |}
  = Normal {| isScrolled := false; activeSection := "about" |}.
Proof. reflexivity. Qed.

(** Without the guard the rectangle query on a missing anchor throws. *)
Example getBoundingClientRect_null :
  getBoundingClientRect (getElementById (document Samples.overlapping) "hero")
  = Throw TypeError.
Proof. reflexivity. Qed.

Example click_work_then_hero :
  (c <- dispatch Samples.overlapping (ClickNavItem {| id := "work"; label := "Work" |})
         mounted ;;
   dispatch Samples.overlapping ClickLogo c)
  = Normal (initialState, [Spec.smoothCall "work"]).
Proof. reflexivity. Qed.

Example signals_twice :
  map Index.phase (Index.trace 2 (Index.mount Samples.scrollingBody))
  = [Index.Loading; Index.Loaded; Index.Loaded].
Proof. reflexivity. Qed.

End Runs.

(** ** Properties of the section tracker *)

Section TrackerClaims.
Import Js Dom ElegantNavigation Spec.

(** C1: on a scroll event the active section becomes the first region,
    in the declared order hero, services, work, about, contact, whose
    anchor rectangle has top <= 100 and bottom >= 100; regions later in
    the order whose rectangles also contain the line do not matter. *)
Theorem handleScroll_activates_first_straddling
    (w : Window) (st : State) (before after : list string) (region : string) :
  sections = (before ++ region :: after)%list ->
  straddles w region ->
  (forall r, In r before -> ~ straddles w r) ->
  exists st', handleScroll w st = Normal st' /\ activeSection st' = region.
Proof.
  intros Hsplit Hregion Hbefore.
  assert (Hin : In region sections).
  { rewrite Hsplit. apply in_or_app. right. by left. }
  assert (Hfind : find (sectionCallback w) sections = Normal (Some region)).
  { rewrite Hsplit. apply find_first.
    - intros r Hr. by apply sectionCallback_false, Hbefore.
    - apply sectionCallback_true; [by apply sections_nonempty | done]. }
  rewrite (handleScroll_found _ _ _ Hfind). by eexists.
Qed.

Lemma handleScroll_activates_first_straddling_witness :
  exists st',
    handleScroll Samples.overlapping initialState = Normal st'
    /\ activeSection st' = "services".
Proof.
  apply (handleScroll_activates_first_straddling Samples.overlapping
           initialState ["hero"] ["work"; "about"; "contact"] "services").
  - reflexivity.
  - exists (Samples.box (-(1241 # 2)) 100).
    split; [reflexivity|]. split; vm_compute; discriminate.
  - intros r [<-|[]] (e & He & _). vm_compute in He. discriminate.
Defined.

(** C2: when no declared region's rectangle contains the reference line,
    the scroll event leaves the active section as it was; it is not
    reset to the empty value. *)
Theorem handleScroll_keeps_active_without_match (w : Window) (st : State) :
  (forall r, In r sections -> ~ straddles w r) ->
  exists st',
    handleScroll w st = Normal st' /\ activeSection st' = activeSection st.
Proof.
  intros Hnone.
  assert (Hfind : find (sectionCallback w) sections = Normal None).
  { apply find_none. intros r Hr. by apply sectionCallback_false, Hnone. }
  rewrite (handleScroll_not_found _ _ Hfind). by eexists.
Qed.

Lemma handleScroll_keeps_active_without_match_witness :
  exists st',
    handleScroll Samples.atTop {| isScrolled := true; activeSection := "work" |}
    = Normal st'
    /\ activeSection st' = "work".
Proof.
  apply (handleScroll_keeps_active_without_match Samples.atTop
           {| isScrolled := true; activeSection := "work" |}).
  intros r Hr (e & He & Htop & _).
  simpl in Hr.
  destruct Hr as [<-|[<-|[<-|[<-|[<-|[]]]]]];
    vm_compute in He; try discriminate;
    injection He as <-; vm_compute in Htop; by apply Htop.
Defined.

(** C3: the scroll event sets the scrolled flag to true exactly when the
    scroll offset is strictly greater than 50, and to false exactly when
    it is at most 50. *)
Theorem handleScroll_isScrolled_threshold (w : Window) (st : State) :
  exists st',
    handleScroll w st = Normal st'
    /\ (isScrolled st' = true <-> (50 < scrollY w)%Q)
    /\ (isScrolled st' = false <-> (scrollY w <= 50)%Q).
Proof.
  destruct (handleScroll_cases w st) as (st' & Hrun & Hflag & _).
  exists st'. split; [done|]. rewrite Hflag.
  split; [apply gt_true_iff | apply gt_false_iff].
Qed.

End TrackerClaims.

Section TrackerRuns.
Import Js Dom ElegantNavigation Spec.

Lemma scrollToSection_completes
    (d : gmap string Element) (sectionId : string) (log : list ScrollCall) :
  exists log', ElegantNavigation.scrollToSection d sectionId log = Normal log'.
Proof.
  unfold ElegantNavigation.scrollToSection.
  destruct (getElementById d sectionId) as [e|]; simpl; by eexists.
Qed.

Lemma handleScroll_preserves_declaredOrNone (w : Window) (st : State) :
  declaredOrNone st ->
  exists st', handleScroll w st = Normal st' /\ declaredOrNone st'.
Proof.
  intros Hinv.
  destruct (handleScroll_cases w st) as (st' & Hrun & _ & [Hsame|Hin]).
  - exists st'. split; [done|]. unfold declaredOrNone. by rewrite Hsame.
  - exists st'. split; [done|]. by right.
Qed.

Lemma onScrolls_preserves_declaredOrNone (ws : list Window) :
  forall st, declaredOrNone st ->
  exists st', onScrolls ws st = Normal st' /\ declaredOrNone st'.
Proof.
  induction ws as [|w ws IH]; intros st Hinv; simpl.
  - by exists st.
  - destruct (handleScroll_preserves_declaredOrNone w st Hinv)
      as (st1 & -> & Hinv1).
    simpl. by apply IH.
Qed.

(** C5: after any run of scroll events from the initial state, the
    active section is the empty value or one of hero, services, work,
    about, contact, and at most one declared region is shown active. *)
Theorem onScrolls_active_is_none_or_declared (ws : list Window) :
  exists st,
    onScrolls ws initialState = Normal st
    /\ (activeSection st = "" \/ In (activeSection st) sections)
    /\ length (activeAmong st sections) <= 1.
Proof.
  destruct (onScrolls_preserves_declaredOrNone ws initialState)
    as (st & Hrun & Hinv); [by left|].
  exists st. split; [done|]. split; [exact Hinv|].
  apply activeAmong_sections_le_1.
Qed.

(** C6: a click helper called with an identifier that resolves to an
    element makes exactly one invocation, smooth, on that element, with
    the default alignment of the element's top to the viewport's top;
    with an identifier that resolves to nothing it does nothing.  The
    helper of the footer and the helper of the navigation agree. *)
Theorem scrollToSection_once_or_noop
    (d : gmap string Element) (sectionId : string) (log : list ScrollCall) :
  Footer.scrollToSection d sectionId log
  = ElegantNavigation.scrollToSection d sectionId log
  /\ match getElementById d sectionId with
     | Some _ =>
         ElegantNavigation.scrollToSection d sectionId log
         = Normal (log ++ [smoothCall sectionId])%list
         /\ target (smoothCall sectionId) = sectionId
         /\ behavior (options (smoothCall sectionId)) = Some Smooth
         /\ alignment (smoothCall sectionId) = Start
     | None => ElegantNavigation.scrollToSection d sectionId log = Normal log
     end.
Proof.
  split; [reflexivity|].
  unfold ElegantNavigation.scrollToSection.
  destruct (getElementById d sectionId) as [e|]; simpl; [|done].
  by repeat split.
Qed.

(** C7: a scroll event always completes without an exception; a declared
    region whose anchor is not in the document counts as not matching,
    so the search gives what it gives on the regions that are present. *)
Theorem handleScroll_total_skips_absent (w : Window) (st : State) :
  (exists st', handleScroll w st = Normal st')
  /\ (forall r, document w !! r = None -> sectionCallback w r = Normal false)
  /\ find (sectionCallback w) sections
     = find (sectionCallback w) (List.filter (present (document w)) sections).
Proof.
  split; [|split].
  - destruct (handleScroll_cases w st) as (st' & Hrun & _). by exists st'.
  - intros r. apply sectionCallback_absent.
  - symmetry. apply find_filter. intros r Hr.
    apply sectionCallback_absent. unfold present in Hr.
    apply bool_decide_eq_false in Hr.
    destruct (document w !! r) as [e|] eqn:He; [|done].
    exfalso. apply Hr. by exists e.
Qed.

(** C9: the navigation starts with the empty active section and the
    scrolled flag false, so no link is shown active and mounting fires
    no handler; an event other than a scroll event leaves both cells as
    they are. *)
Theorem navigation_initial_and_frame :
  activeSection (fst mounted) = ""
  /\ isScrolled (fst mounted) = false
  /\ render (fst mounted)
     = {| opaqueBar := false;
          links := [("Work", false); ("Services", false); ("About", false)] |}
  /\ activeAmong (fst mounted) sections = []
  /\ (forall (w : Window) (ev : Event) (c : Config),
        isScrollEvent ev = false ->
        exists log, dispatch w ev c = Normal (fst c, log)).
Proof.
  repeat split.
  intros w ev [st log] Hev. simpl.
  destruct ev as [ | |item| ]; [discriminate| | | ]; simpl;
    match goal with
    | |- context [ElegantNavigation.scrollToSection ?d ?i ?l] =>
        destruct (scrollToSection_completes d i l) as [log' ->]
    end; by eexists.
Qed.

End TrackerRuns.

(** ** Properties of the preloader gate *)

Section Lifecycle.
Import Index.

Lemma handlePreloaderComplete_idempotent (c : Config) :
  handlePreloaderComplete (handlePreloaderComplete c)
  = handlePreloaderComplete c.
Proof. reflexivity. Qed.

(** Once a completion signal has been handled, further signals go
    through the same configuration. *)
Lemma trace_after_complete (n : nat) (c : Config) :
  trace n (handlePreloaderComplete c)
  = replicate (S n) (handlePreloaderComplete c).
Proof.
  induction n as [|n IH]; simpl; [done|].
  rewrite handlePreloaderComplete_idempotent. by rewrite IH.
Qed.

Lemma falls_replicate (p : Config -> bool) (k : nat) (c : Config) :
  falls p (replicate k c) = 0.
Proof.
  induction k as [|k IH]; [done|].
  destruct k as [|k]; [done|].
  change (falls p (replicate (S (S k)) c))
    with ((if p c && negb (p c) then 1 else 0) + falls p (replicate (S k) c)).
  rewrite IH. by destruct (p c).
Qed.

Lemma falls_trace_from (p : Config -> bool) (n : nat) (c : Config) :
  falls p (trace (S n) c)
  = if p c && negb (p (handlePreloaderComplete c)) then 1 else 0.
Proof.
  cbn [trace]. rewrite trace_after_complete.
  change (falls p (c :: replicate (S n) (handlePreloaderComplete c)))
    with ((if p c && negb (p (handlePreloaderComplete c)) then 1 else 0)
          + falls p (replicate (S n) (handlePreloaderComplete c))).
  rewrite falls_replicate. lia.
Qed.

(** C4: the page starts in Loading with the scroll locked and the main
    content not mounted; the completion signal takes it to Loaded with
    the lock released and the main content mounted; along any run of one
    or more signals the phase leaves Loading exactly once, the lock is
    released exactly once, the phase never goes back and the lock is
    never taken again; a second signal changes nothing. *)
Theorem lifecycle_loads_once (d : Page) (n : nat) :
  (phase (mount d) = Loading
   /\ scrollLocked (page (mount d)) = true
   /\ render (mount d) = {| preloader := true; mainApplication := false |})
  /\ (phase (handlePreloaderComplete (mount d)) = Loaded
      /\ scrollLocked (page (handlePreloaderComplete (mount d))) = false
      /\ render (handlePreloaderComplete (mount d))
         = {| preloader := false; mainApplication := true |})
  /\ (falls (fun c => negb (isLoaded c)) (trace (S n) (mount d)) = 1
      /\ falls (fun c => scrollLocked (page c)) (trace (S n) (mount d)) = 1
      /\ falls isLoaded (trace (S n) (mount d)) = 0
      /\ falls (fun c => negb (scrollLocked (page c))) (trace (S n) (mount d)) = 0
      /\ Forall (fun c => phase c = Loaded /\ scrollLocked (page c) = false)
           (tail (trace (S n) (mount d))))
  /\ (forall c, handlePreloaderComplete (handlePreloaderComplete c)
                = handlePreloaderComplete c).
Proof.
  split; [by repeat split|]. split; [by repeat split|].
  split; [|exact handlePreloaderComplete_idempotent].
  rewrite !falls_trace_from. repeat split.
  cbn [trace tail]. rewrite trace_after_complete.
  apply Forall_forall. intros c Hc.
  apply elem_of_replicate in Hc as [-> _]. by split.
Qed.

(** C8: a page torn down while still in Loading has its scroll lock
    released by the cleanup of the mount effect; whatever the phase, no
    lock is left behind by a teardown. *)
Theorem unmount_releases_lock (d : Page) :
  phase (mount d) = Loading
  /\ scrollLocked (page (mount d)) = true
  /\ scrollLocked (unmount (mount d)) = false
  /\ (forall c, scrollLocked (unmount c) = false).
Proof. by repeat split. Qed.

(** C10: both releases of the lock, the one of the completion signal and
    the one of the cleanup, write "unset" to the overflow of the body;
    a value the body had before the lock was taken is not put back. *)
Theorem release_writes_unset (d : Page) :
  bodyOverflow (page (handlePreloaderComplete (mount d))) = "unset"
  /\ bodyOverflow (unmount (mount d)) = "unset"
  /\ (bodyOverflow d <> "unset" ->
      bodyOverflow (page (handlePreloaderComplete (mount d))) <> bodyOverflow d
      /\ bodyOverflow (unmount (mount d)) <> bodyOverflow d).
Proof.
  split; [done|]. split; [done|].
  intros Hprev. simpl. split; congruence.
Qed.

Lemma release_writes_unset_witness :
  bodyOverflow (page (handlePreloaderComplete (mount Samples.scrollingBody)))
  <> bodyOverflow Samples.scrollingBody
  /\ bodyOverflow (unmount (mount Samples.scrollingBody))
     <> bodyOverflow Samples.scrollingBody.
Proof.
  apply (proj2 (proj2 (release_writes_unset Samples.scrollingBody))).
  discriminate.
Defined.

End Lifecycle.

(** ** More on the array search *)

Section FindMore.
Import Js.
Context {A : Type}.

(** A hit comes with the part of the array the search went through. *)
Lemma find_some_split (callback : A -> Completion bool) (l : list A) (x : A) :
  find callback l = Normal (Some x) ->
  exists before after,
    l = (before ++ x :: after)%list
    /\ callback x = Normal true
    /\ (forall y, In y before -> callback y = Normal false).
Proof.
  induction l as [|y l IH]; simpl; [done|].
  destruct (callback y) as [[|]|e] eqn:Hy; simpl; [| |done].
  - intros [= ->]. exists [], l. by repeat split.
  - intros Hrest. destruct (IH Hrest) as (before & after & -> & Hx & Hb).
    exists (y :: before), after. split; [done|]. split; [done|].
    intros z [<-|Hz]; [done | by apply Hb].
Qed.

Lemma find_none_all (callback : A -> Completion bool) (l : list A) :
  find callback l = Normal None ->
  forall y, In y l -> callback y = Normal false.
Proof.
  induction l as [|x l IH]; simpl; [done|].
  destruct (callback x) as [[|]|e] eqn:Hx; simpl; [done| |done].
  intros Hrest y [<-|Hy]; [done | by apply IH].
Qed.

Lemma find_ext (f g : A -> Completion bool) (l : list A) :
  (forall x, f x = g x) -> find f l = find g l.
Proof.
  intros Hfg. induction l as [|x l IH]; simpl; [done|].
  by rewrite Hfg, IH.
Qed.

End FindMore.

(** ** More on the section tracker *)

Section TrackerMore.
Import Js Dom ElegantNavigation Spec.

Lemma sectionCallback_true_inv (w : Window) (r : string) :
  sectionCallback w r = Normal true -> straddles w r.
Proof.
  unfold sectionCallback, getElementById.
  destruct (String.eqb r ""); [done|].
  destruct (document w !! r) as [e|] eqn:He; simpl; [|done].
  unfold ret. intros [= Hb]. apply andb_true_iff in Hb as [Htop Hbot].
  exists e. split; [done|].
  split; [by apply leq_true_iff | by apply geq_true_iff].
Qed.

Lemma sectionCallback_false_inv (w : Window) (r : string) :
  r <> "" -> sectionCallback w r = Normal false -> ~ straddles w r.
Proof.
  intros Hr Hcb Hs. rewrite (sectionCallback_true _ _ Hr Hs) in Hcb.
  discriminate.
Qed.

Lemma sectionCallback_document (w1 w2 : Window) (r : string) :
  document w1 = document w2 -> sectionCallback w1 r = sectionCallback w2 r.
Proof. intros Hd. unfold sectionCallback. by rewrite Hd. Qed.

Lemma onScrolls_completes (ws : list Window) :
  forall st, exists st', onScrolls ws st = Normal st'.
Proof.
  induction ws as [|w ws IH]; intros st; simpl; [by eexists|].
  destruct (handleScroll_cases w st) as (st1 & -> & _). simpl. apply IH.
Qed.

Lemma onScrolls_app (ws1 ws2 : list Window) :
  forall st,
    onScrolls (ws1 ++ ws2) st = (st1 <- onScrolls ws1 st ;; onScrolls ws2 st1).
Proof.
  induction ws1 as [|w ws1 IH]; intros st; simpl; [done|].
  destruct (handleScroll w st) as [st1|e]; simpl; [apply IH | done].
Qed.

(** X1: when a scroll event changes the active section, the new active
    section is a declared region whose rectangle contains the reference
    line in that window, and no region declared before it does; when no
    declared region's rectangle contains the line the active section is
    unchanged.  No other outcome exists. *)
Theorem handleScroll_outcome (w : Window) (st : State) :
  exists st',
    handleScroll w st = Normal st'
    /\ ((activeSection st' = activeSection st
         /\ forall r, In r sections -> ~ straddles w r)
        \/ (exists before after,
              sections = (before ++ activeSection st' :: after)%list
              /\ straddles w (activeSection st')
              /\ forall r, In r before -> ~ straddles w r)).
Proof.
  destruct (find_normal (sectionCallback w) (sectionCallback_pure w) sections)
    as [[r|] Hfind].
  - rewrite (handleScroll_found _ _ _ Hfind). eexists. split; [done|].
    right. simpl.
    destruct (find_some_split _ _ _ Hfind) as (before & after & Hs & Hr & Hb).
    exists before, after. split; [done|].
    split; [by apply sectionCallback_true_inv|].
    intros y Hy. apply sectionCallback_false_inv; [|by apply Hb].
    apply sections_nonempty. rewrite Hs. apply in_or_app. by left.
  - rewrite (handleScroll_not_found _ _ Hfind). eexists. split; [done|].
    left. split; [done|]. intros r Hr.
    apply sectionCallback_false_inv; [by apply sections_nonempty|].
    by apply (find_none_all _ _ Hfind).
Qed.

(** X2: handling the same window a second time changes nothing: the
    state after two scroll events on one window is the state after one. *)
Theorem handleScroll_idempotent (w : Window) (st : State) :
  (st1 <- handleScroll w st ;; handleScroll w st1) = handleScroll w st.
Proof.
  destruct (find_normal (sectionCallback w) (sectionCallback_pure w) sections)
    as [[r|] Hfind].
  - rewrite (handleScroll_found _ _ _ Hfind). simpl.
    by rewrite (handleScroll_found _ _ _ Hfind).
  - rewrite (handleScroll_not_found _ _ Hfind). simpl.
    by rewrite (handleScroll_not_found _ _ Hfind).
Qed.

(** X3: the two cells are computed apart.  Two scroll events that see the
    same document and start from the same active section end with the
    same active section, whatever the scroll offsets and the old flags;
    two scroll events at the same offset end with the same flag,
    whatever the documents and the old states. *)
Theorem handleScroll_cells_independent (w1 w2 : Window) (st1 st2 : State) :
  exists a b,
    handleScroll w1 st1 = Normal a
    /\ handleScroll w2 st2 = Normal b
    /\ (document w1 = document w2 ->
        activeSection st1 = activeSection st2 ->
        activeSection a = activeSection b)
    /\ ((scrollY w1 == scrollY w2)%Q -> isScrolled a = isScrolled b).
Proof.
  destruct (handleScroll_cases w1 st1) as (a & Ha & Hfa & _).
  destruct (handleScroll_cases w2 st2) as (b & Hb & Hfb & _).
  exists a, b. split; [done|]. split; [done|]. split.
  - intros Hd Hst.
    assert (Hsame : find (sectionCallback w2) sections
                    = find (sectionCallback w1) sections).
    { apply find_ext. intros r. by apply sectionCallback_document. }
    destruct (find_normal (sectionCallback w1) (sectionCallback_pure w1)
                sections) as [[r|] Hfind].
    + rewrite (handleScroll_found w1 _ _ Hfind) in Ha.
      rewrite (handleScroll_found w2 _ r) in Hb by (by rewrite Hsame).
      injection Ha as <-. by injection Hb as <-.
    + rewrite (handleScroll_not_found w1 _ Hfind) in Ha.
      rewrite (handleScroll_not_found w2) in Hb by (by rewrite Hsame).
      injection Ha as <-. by injection Hb as <-.
  - intros Hy. rewrite Hfa, Hfb. apply Bool.eq_iff_eq_true.
    rewrite !gt_true_iff. by rewrite Hy.
Qed.

End TrackerMore.

(** ** Runs of scroll events *)

Section ScrollRuns.
Import Js Dom ElegantNavigation Spec.

Lemma atTop_nothing_straddles (r : string) :
  In r sections -> ~ straddles Samples.atTop r.
Proof.
  intros Hr (e & He & Htop & _). simpl in Hr.
  destruct Hr as [<-|[<-|[<-|[<-|[<-|[]]]]]];
    vm_compute in He; try discriminate;
    injection He as <-; vm_compute in Htop; by apply Htop.
Qed.

Lemma stacked_work_first :
  straddles Samples.stacked "work"
  /\ forall r, In r ["hero"; "services"] -> ~ straddles Samples.stacked r.
Proof.
  split.
  - exists (Samples.box (-300) 640).
    split; [reflexivity|]. split; vm_compute; discriminate.
  - intros r Hr (e & He & _ & Hbot). simpl in Hr.
    destruct Hr as [<-|[<-|[]]];
      vm_compute in He; injection He as <-; vm_compute in Hbot; by apply Hbot.
Qed.

Lemma onScrolls_keeps_active_without_match (ws : list Window) :
  forall st,
    (forall w r, In w ws -> In r sections -> ~ straddles w r) ->
    exists st',
      onScrolls ws st = Normal st' /\ activeSection st' = activeSection st.
Proof.
  induction ws as [|w ws IH]; intros st Hnone; simpl; [by exists st|].
  assert (Hfind : find (sectionCallback w) sections = Normal None).
  { apply find_none. intros r Hr.
    apply sectionCallback_false, (Hnone w r); [by left | done]. }
  rewrite (handleScroll_not_found _ _ Hfind). simpl.
  destruct (IH (setIsScrolled (gt (scrollY w) 50) st)) as (st' & Hrun & Hact).
  { intros w' r Hw'. apply Hnone. by right. }
  exists st'. by split.
Qed.

(** X4: once the active section is a declared region, no run of scroll
    events takes it back to the empty value: it is a declared region
    after every run. *)
Theorem onScrolls_active_stays_declared (ws : list Window) (st : State) :
  In (activeSection st) sections ->
  exists st',
    onScrolls ws st = Normal st' /\ In (activeSection st') sections.
Proof.
  revert st. induction ws as [|w ws IH]; intros st Hin; simpl.
  - by exists st.
  - destruct (handleScroll_cases w st) as (st1 & -> & _ & [Hsame|Hin1]);
      simpl; apply IH; [by rewrite Hsame | done].
Qed.

Lemma onScrolls_active_stays_declared_witness :
  exists st',
    onScrolls [Samples.atTop; Samples.overlapping; Samples.atTop]
      {| isScrolled := false; activeSection := "about" |} = Normal st'
    /\ In (activeSection st') sections.
Proof.
  apply (onScrolls_active_stays_declared
           [Samples.atTop; Samples.overlapping; Samples.atTop]
           {| isScrolled := false; activeSection := "about" |}).
  simpl. tauto.
Defined.

(** X5: after a run of scroll events the active section is the one set
    by the last window in which some declared region's rectangle
    contained the reference line: the first such region of that window,
    whatever was active before and however many windows without a match
    follow. *)
Theorem onScrolls_last_match_wins
    (ws1 ws2 : list Window) (w : Window) (st : State)
    (before after : list string) (region : string) :
  sections = (before ++ region :: after)%list ->
  straddles w region ->
  (forall r, In r before -> ~ straddles w r) ->
  (forall w' r, In w' ws2 -> In r sections -> ~ straddles w' r) ->
  exists st',
    onScrolls (ws1 ++ w :: ws2) st = Normal st' /\ activeSection st' = region.
Proof.
  intros Hsplit Hregion Hbefore Hlater.
  rewrite onScrolls_app.
  destruct (onScrolls_completes ws1 st) as (st1 & ->). simpl.
  assert (Hfind : find (sectionCallback w) sections = Normal (Some region)).
  { rewrite Hsplit. apply find_first.
    - intros r Hr. by apply sectionCallback_false, Hbefore.
    - apply sectionCallback_true; [|done].
      apply sections_nonempty. rewrite Hsplit. apply in_or_app. right. by left. }
  rewrite (handleScroll_found _ _ _ Hfind). simpl.
  destruct (onScrolls_keeps_active_without_match ws2
              (setActiveSection region (setIsScrolled (gt (scrollY w) 50) st1))
              Hlater) as (st' & Hrun & Hact).
  exists st'. by split.
Qed.

Lemma onScrolls_last_match_wins_witness :
  exists st',
    onScrolls ([Samples.overlapping] ++ Samples.stacked :: [Samples.atTop])
      initialState = Normal st'
    /\ activeSection st' = "work".
Proof.
  apply (onScrolls_last_match_wins [Samples.overlapping] [Samples.atTop]
           Samples.stacked initialState
           ["hero"; "services"] ["about"; "contact"] "work").
  - reflexivity.
  - apply stacked_work_first.
  - apply stacked_work_first.
  - intros w' r [<-|[]]. apply atTop_nothing_straddles.
Defined.

(** X6: after a run of scroll events the scrolled flag tells whether the
    offset of the last event was above 50; earlier offsets leave no
    trace. *)
Theorem onScrolls_flag_of_last (ws : list Window) (w : Window) (st : State) :
  exists st',
    onScrolls (ws ++ [w]) st = Normal st'
    /\ (isScrolled st' = true <-> (50 < scrollY w)%Q).
Proof.
  rewrite onScrolls_app.
  destruct (onScrolls_completes ws st) as (st1 & ->). simpl.
  destruct (handleScroll_cases w st1) as (st' & -> & Hflag & _). simpl.
  exists st'. split; [done|]. rewrite Hflag. apply gt_true_iff.
Qed.

End ScrollRuns.

(** ** Runs of navigation events *)

Section EventRuns.
Import Js Dom ElegantNavigation Spec.

Lemma scrollToSection_callsFor
    (d : gmap string Element) (sectionId : string) (log : list ScrollCall) :
  ElegantNavigation.scrollToSection d sectionId log
  = Normal (log ++ callsFor d sectionId)%list.
Proof.
  unfold ElegantNavigation.scrollToSection, callsFor.
  destruct (getElementById d sectionId) as [e|]; simpl; [done|].
  by rewrite app_nil_r.
Qed.

Lemma run_split (es : list (Window * Event)) :
  forall st log,
    run es (st, log)
    = (st' <- onScrolls (scrollWindows es) st ;;
       ret (st', (log ++ clickCalls es)%list)).
Proof.
  induction es as [|[w ev] es IH]; intros st log.
  - simpl. by rewrite app_nil_r.
  - destruct ev as [ | |item| ];
      cbn [run dispatch fst snd];
      try (rewrite scrollToSection_callsFor; cbn [bind ret];
           rewrite IH; unfold clickCalls at 2; cbn [flat_map clickTarget fst snd];
           fold (clickCalls es); by rewrite app_assoc).
    unfold scrollWindows. cbn [List.filter isScrollEvent snd map fst onScrolls].
    fold (scrollWindows es).
    destruct (handleScroll w st) as [st1|e]; cbn [bind ret]; [|done].
    by rewrite IH.
Qed.

Lemma callsFor_declared (d : gmap string Element) (sectionId : string) :
  In sectionId sections ->
  Forall (fun c => In (target c) sections
                   /\ behavior (options c) = Some Smooth
                   /\ alignment c = Start) (callsFor d sectionId).
Proof.
  intros Hin. unfold callsFor.
  destruct (truthyRef (getElementById d sectionId)); [|by constructor].
  constructor; [|by constructor]. by repeat split.
Qed.

Lemma callsFor_length (d : gmap string Element) (sectionId : string) :
  length (callsFor d sectionId) <= 1.
Proof.
  unfold callsFor. destruct (truthyRef (getElementById d sectionId)); simpl; lia.
Qed.

Lemma navItems_declared (item : NavItem) :
  In item navItems -> In (id item) sections.
Proof. simpl. intros [<-|[<-|[<-|[]]]]; simpl; tauto. Qed.

(** X7: in a run of navigation events the scroll events and the clicks do
    not meet: the state at the end is the state the scroll events alone
    give, and the invocations made are those of the clicks alone, one
    per click whose identifier resolves in the window of that click, in
    the order of the clicks. *)
Theorem run_scrolls_and_clicks_apart
    (es : list (Window * Event)) (st : State) (log : list ScrollCall) :
  exists st',
    onScrolls (scrollWindows es) st = Normal st'
    /\ run es (st, log) = Normal (st', (log ++ clickCalls es)%list).
Proof.
  destruct (onScrolls_completes (scrollWindows es) st) as (st' & Hst).
  exists st'. split; [done|]. by rewrite run_split, Hst.
Qed.

(** X8: whatever the events since mounting, with the link clicks on the
    rendered links, every invocation made is smooth, top-aligned and on
    one of the regions the tracker declares, and there are no more
    invocations than clicks. *)
Theorem run_invocations_on_declared (es : list (Window * Event)) :
  (forall w item, In (w, ClickNavItem item) es -> In item navItems) ->
  exists st log,
    run es mounted = Normal (st, log)
    /\ Forall (fun c => In (target c) sections
                        /\ behavior (options c) = Some Smooth
                        /\ alignment c = Start) log
    /\ length log
       <= length (List.filter (fun e => negb (isScrollEvent (snd e))) es).
Proof.
  intros Hitems. unfold mounted. rewrite run_split.
  destruct (onScrolls_completes (scrollWindows es) initialState) as (st & ->).
  exists st, (clickCalls es). split; [done|]. clear st.
  induction es as [|[w ev] es IH]; [by split; [constructor | simpl]|].
  destruct IH as [IHall IHlen].
  { intros w' item Hin. apply (Hitems w'). by right. }
  unfold clickCalls. cbn [flat_map fst snd]. fold (clickCalls es).
  destruct ev as [ | |item| ]; cbn [clickTarget List.filter isScrollEvent snd negb].
  - by split.
  - split.
    + apply Forall_app. split; [apply callsFor_declared; simpl; tauto | done].
    + rewrite length_app. cbn [length].
      pose proof (callsFor_length (document w) "hero"). lia.
  - split.
    + apply Forall_app. split; [|done].
      apply callsFor_declared, navItems_declared, (Hitems w). by left.
    + rewrite length_app. cbn [length].
      pose proof (callsFor_length (document w) (id item)). lia.
  - split.
    + apply Forall_app. split; [apply callsFor_declared; simpl; tauto | done].
    + rewrite length_app. cbn [length].
      pose proof (callsFor_length (document w) "contact"). lia.
Qed.

Lemma run_invocations_on_declared_witness :
  exists st log,
    run [ (Samples.stacked, ClickNavItem {| id := "about"; label := "About" |});
          (Samples.stacked, Scroll);
          (Samples.overlapping, ClickLogo);
          (Samples.overlapping, ClickCta) ] mounted = Normal (st, log)
    /\ Forall (fun c => In (target c) sections
                        /\ behavior (options c) = Some Smooth
                        /\ alignment c = Start) log
    /\ length log <= 3.
Proof.
  apply (run_invocations_on_declared
           [ (Samples.stacked, ClickNavItem {| id := "about"; label := "About" |});
             (Samples.stacked, Scroll);
             (Samples.overlapping, ClickLogo);
             (Samples.overlapping, ClickCta) ]).
  intros w item [H|[H|[H|[H|[]]]]]; try discriminate.
  injection H as _ <-. simpl. tauto.
Defined.

End EventRuns.

(** ** The rendered links *)

Section Links.
Import Js Dom ElegantNavigation Spec.

(** X9: whatever the state, the navigation paints at most one link as
    active; a link is painted exactly when its identifier is the active
    section, so with hero or contact active, which have no link, or with
    nothing active, none is painted. *)
Theorem render_highlights_at_most_one (st : State) :
  length (highlighted (render st)) <= 1
  /\ (forall item, In item navItems ->
        (In (label item) (highlighted (render st))
         <-> activeSection st = id item))
  /\ ((forall item, In item navItems -> activeSection st <> id item)
      <-> highlighted (render st) = []).
Proof.
  unfold highlighted, render, isActive. cbn [links navItems map id label].
  generalize (activeSection st) as a. intros a.
  destruct (String.eqb_spec a "work") as [->|Hw].
  { cbn. split; [lia|]. split.
    - intros item [<-|[<-|[<-|[]]]]; cbn; split; intros H;
        try done; try (by left); by destruct H.
    - split; [|done]. intros H. exfalso. by apply (H {| id := "work"; label := "Work" |}); [left|]. }
  destruct (String.eqb_spec a "services") as [->|Hs].
  { cbn. split; [lia|]. split.
    - intros item [<-|[<-|[<-|[]]]]; cbn; split; intros H;
        try done; try (by left); by destruct H.
    - split; [|done]. intros H. exfalso.
      by apply (H {| id := "services"; label := "Services" |}); [right; left|]. }
  destruct (String.eqb_spec a "about") as [->|Ha].
  { cbn. split; [lia|]. split.
    - intros item [<-|[<-|[<-|[]]]]; cbn; split; intros H;
        try done; try (by left); by destruct H.
    - split; [|done]. intros H. exfalso.
      by apply (H {| id := "about"; label := "About" |}); [right; right; left|]. }
  cbn. split; [lia|]. split.
  - intros item [<-|[<-|[<-|[]]]]; cbn; by split.
  - split; [done|]. intros _ item [<-|[<-|[<-|[]]]]; by cbn.
Qed.

End Links.

(** ** The scroll listener *)

Section ListenerLifecycle.
Import Js Dom ElegantNavigation.

Lemma sameListener_refl (l : Listener) : sameListener l l = true.
Proof.
  unfold sameListener. by rewrite String.eqb_refl, Nat.eqb_refl.
Qed.

Lemma removeEventListener_fresh (ty : string) (cb : nat) (ls tail : list Listener) :
  registered ty cb ls = false ->
  removeEventListener ty cb (ls ++ tail) = (ls ++ removeEventListener ty cb tail)%list.
Proof.
  unfold registered. induction ls as [|l ls IH]; cbn [existsb app]; [done|].
  intros H. apply orb_false_iff in H as [Hl Hls].
  cbn [removeEventListener]. rewrite Hl. by rewrite IH.
Qed.

Lemma registered_add (ty : string) (cb : nat) (ls : list Listener) :
  registered ty cb (addEventListener ty cb ls) = true.
Proof.
  unfold addEventListener. destruct (registered ty cb ls) eqn:H; [done|].
  unfold registered. rewrite existsb_app. cbn.
  rewrite sameListener_refl. by rewrite orb_true_r.
Qed.


(** X10: the effect and its cleanup are balanced.  For a handler closure
    that is new to the window, the effect registers it, so scroll events
    reach [handleScroll]; the cleanup then leaves the listener list
    exactly as it was before the effect, and scroll events no longer
    reach the handler. *)
Theorem effect_cleanup_balanced
    (self : nat) (ls : list Listener) (w : Window) (st : State) :
  registered "scroll" self ls = false ->
  windowScroll self (effect self ls) w st = handleScroll w st
  /\ effectCleanup self (effect self ls) = ls
  /\ windowScroll self (effectCleanup self (effect self ls)) w st = Normal st.
Proof.
  intros Hfresh.
  assert (Hback : effectCleanup self (effect self ls) = ls).
  { unfold effectCleanup, effect, addEventListener. rewrite Hfresh.
    rewrite (removeEventListener_fresh _ _ _ _ Hfresh).
    cbn [removeEventListener]. rewrite sameListener_refl. apply app_nil_r. }
  split; [|split; [exact Hback|]].
  - unfold windowScroll, effect. by rewrite registered_add.
  - rewrite Hback. unfold windowScroll. by rewrite Hfresh.
Qed.

Lemma effect_cleanup_balanced_witness :
  windowScroll 5 (effect 5 Samples.otherListeners) Samples.stacked initialState
  = handleScroll Samples.stacked initialState
  /\ effectCleanup 5 (effect 5 Samples.otherListeners) = Samples.otherListeners
  /\ windowScroll 5 (effectCleanup 5 (effect 5 Samples.otherListeners))
       Samples.stacked initialState = Normal initialState.
Proof.
  apply (effect_cleanup_balanced 5 Samples.otherListeners Samples.stacked
           initialState).
  reflexivity.
Defined.


End ListenerLifecycle.

(** ** The quick links of the footer *)

Section QuickLinks.
Import Js Dom Spec.

Lemma footer_scrollToSection_callsFor
    (d : gmap string Element) (sectionId : string) (log : list ScrollCall) :
  Footer.scrollToSection d sectionId log
  = Normal (log ++ callsFor d sectionId)%list.
Proof.
  unfold Footer.scrollToSection, callsFor.
  destruct (getElementById d sectionId) as [e|]; simpl; [done|].
  by rewrite app_nil_r.
Qed.

Lemma clicks_split (qs : list (gmap string Element * Footer.QuickLink)) :
  forall log, Footer.clicks qs log = Normal (log ++ quickLinkCalls qs)%list.
Proof.
  induction qs as [|[d q] qs IH]; intros log; cbn [Footer.clicks].
  - unfold ret. by rewrite app_nil_r.
  - unfold Footer.onClick. rewrite footer_scrollToSection_callsFor.
    cbn [bind]. rewrite IH. unfold quickLinkCalls. cbn [flat_map fst snd].
    by rewrite app_assoc.
Qed.

Lemma quickLinkTarget_declared (q : Footer.QuickLink) :
  In (Footer.quickLinkTarget q) ElegantNavigation.sections.
Proof. destruct q; simpl; tauto. Qed.

(** X12: a run of clicks on the quick links of the footer never throws
    and makes one smooth, top-aligned invocation per click whose anchor
    is in the document of that click, in the order of the clicks; every
    target is a region the navigation tracks; and where all the anchors
    are present there are as many invocations as clicks. *)
Theorem footer_clicks_invocations
    (qs : list (gmap string Element * Footer.QuickLink))
    (log : list ScrollCall) :
  Footer.clicks qs log = Normal (log ++ quickLinkCalls qs)%list
  /\ Forall (fun c => In (target c) ElegantNavigation.sections
                      /\ behavior (options c) = Some Smooth
                      /\ alignment c = Start) (quickLinkCalls qs)
  /\ length (quickLinkCalls qs) <= length qs
  /\ (Forall (fun e => is_Some (fst e !! Footer.quickLinkTarget (snd e))) qs ->
      quickLinkCalls qs
      = map (fun e => smoothCall (Footer.quickLinkTarget (snd e))) qs).
Proof.
  split; [apply clicks_split|].
  induction qs as [|[d q] qs (IHall & IHlen & IHeq)].
  - repeat split; [constructor | done].
  - unfold quickLinkCalls. cbn [flat_map fst snd]. fold (quickLinkCalls qs).
    split; [|split].
    + apply Forall_app. split; [|done].
      apply callsFor_declared, quickLinkTarget_declared.
    + rewrite length_app. cbn [length].
      pose proof (callsFor_length d (Footer.quickLinkTarget q)). lia.
    + intros Hall. apply Forall_cons in Hall as [[e He] Hrest].
      cbn [fst snd] in He. cbn [map fst snd]. rewrite (IHeq Hrest).
      unfold callsFor. rewrite getElementById_lookup, He; [done|].
      by destruct q.
Qed.

End QuickLinks.

(** ** More on the preloader gate *)

Section LifecycleMore.
Import Index.

Lemma page_after_signals (n : nat) (c : Config) :
  classList (page (Nat.iter n handlePreloaderComplete c)) = classList (page c).
Proof. induction n as [|n IH]; [done|]. simpl. exact IH. Qed.

(** X13: the page only ever adds to the class list of the root element.
    After mounting, any number of completion signals and the teardown,
    the class list is what it was before with "dark" added: the dark
    class stays behind, and no class that was there is lost. *)
Theorem classes_only_grow (d : Page) (n : nat) :
  classList (page (Nat.iter n handlePreloaderComplete (mount d)))
  = {[ "dark" ]} ∪ classList d
  /\ classList (unmount (Nat.iter n handlePreloaderComplete (mount d)))
     = {[ "dark" ]} ∪ classList d
  /\ "dark" ∈ classList (unmount (Nat.iter n handlePreloaderComplete (mount d)))
  /\ classList d
     ⊆ classList (unmount (Nat.iter n handlePreloaderComplete (mount d))).
Proof.
  assert (H : classList (unmount (Nat.iter n handlePreloaderComplete (mount d)))
              = {[ "dark" ]} ∪ classList d).
  { unfold unmount, cleanup. cbn [setOverflow classList].
    by rewrite page_after_signals. }
  split; [by rewrite page_after_signals|]. split; [exact H|].
  rewrite H. split.
  - by apply elem_of_union_l, elem_of_singleton_2.
  - apply union_subseteq_r.
Qed.

(** X14: a page that is torn down and mounted again starts over: it is
    in Loading with the scroll locked and only the preloader shown, even
    when it had reached Loaded before; on the document a first mount
    left, the second mount gives the configuration of the first. *)
Theorem remount_starts_over (c : Config) (d : Page) :
  phase (remount c) = Loading
  /\ scrollLocked (page (remount c)) = true
  /\ render (remount c) = {| preloader := true; mainApplication := false |}
  /\ remount (handlePreloaderComplete (mount d)) = mount d
  /\ remount (mount d) = mount d.
Proof.
  split; [done|]. split; [done|]. split; [done|].
  assert (Hset : ({[ "dark" ]} ∪ ({[ "dark" ]} ∪ classList d) : gset string)
                 = {[ "dark" ]} ∪ classList d).
  { by rewrite (assoc_L (∪)), (idemp_L (∪)). }
  split; unfold remount, mount, unmount, cleanup, mountEffect, setOverflow,
    addClass, handlePreloaderComplete; cbn; by rewrite Hset.
Qed.

End LifecycleMore.
